(** * Referral system API: users, referral links, referrals and points

    A shallow embedding of [main.py]: the two tables declared with
    SQLAlchemy ([users], [referrals]), the session operations the handlers
    use (query/filter/first/all, add/commit/refresh) and the six request
    handlers, followed by the properties of the handlers.

    The store is threaded explicitly: a handler takes the database it finds
    and returns the database it leaves, or raises.  A table is the list of
    its rows in insertion order. *)

From Stdlib Require Import List String Ascii ZArith Bool Lia Permutation.
Import ListNotations.

Local Open Scope string_scope.
Local Open Scope list_scope.
Local Open Scope Z_scope.

(** ** Tables *)

(** [datetime] values are points on the UTC clock; only equality matters. *)
Definition datetime := Z.

(** class User(Base): id, tg_id (unique), username, ref_link (unique). *)
Module User.
Record row := mk
  { id : Z;
    tg_id : string;
    username : string;
    ref_link : string }.
End User.

(** class Referral(Base) of main.py: id, date (default utcnow),
    user_tg_id and friend_tg_id (both ForeignKey("users.tg_id")),
    points (default 0). *)
Module Referral.
Record row := mk
  { id : Z;
    date : datetime;
    user_tg_id : string;
    friend_tg_id : string;
    points : Z }.
End Referral.

(** The database behind a session.  [foreign_keys] says whether the backing
    store selected by DATABASE_URL enforces the FOREIGN KEY constraints of
    the schema (PostgreSQL and MySQL/InnoDB do; SQLite does only under
    PRAGMA foreign_keys=ON).  The two sequences hold the last primary key
    handed out for each table. *)
Record DB := mkDB
  { foreign_keys : bool;
    users : list User.row;
    referrals : list Referral.row;
    users_id_seq : Z;
    referrals_id_seq : Z }.

(** Base.metadata.create_all on a store with no tables yet. *)
Definition empty_db (fk : bool) : DB :=
  {| foreign_keys := fk; users := []; referrals := [];
     users_id_seq := 0; referrals_id_seq := 0 |}.

(** ** Exceptions and results *)

Inductive exn :=
| HTTPException (status_code : Z) (detail : string)
| IntegrityError.

Inductive result (A : Type) :=
| Ok (a : A)
| Raise (e : exn).
Arguments Ok {A} a.
Arguments Raise {A} e.

Definition NotFound : exn := HTTPException 404 "User not found".
Definition Conflict : exn := HTTPException 400 "Referral already exists".

(** ** Queries *)

(** Query.first(): the first row of the result, or None. *)
Definition first {A : Type} (rows : list A) : option A :=
  match rows with
  | [] => None
  | r :: _ => Some r
  end.

(** db.query(User).filter(User.tg_id == tg_id) *)
Definition users_with_tg_id (db : DB) (tg_id : string) : list User.row :=
  filter (fun u => String.eqb (User.tg_id u) tg_id) (users db).

(** db.query(Referral).filter(Referral.user_tg_id == tg_id) *)
Definition referrals_of (db : DB) (tg_id : string) : list Referral.row :=
  filter (fun r => String.eqb (Referral.user_tg_id r) tg_id) (referrals db).

(** db.query(Referral).filter(Referral.user_tg_id == u,
                              Referral.friend_tg_id == f) *)
Definition referrals_with_pair (db : DB) (u f : string) : list Referral.row :=
  filter (fun r => String.eqb (Referral.user_tg_id r) u
                   && String.eqb (Referral.friend_tg_id r) f)
         (referrals db).

(** db.query(User).filter(User.tg_id.in_(ids)).  The query has no
    ORDER BY, so which rows come back is fixed but their order is the
    store's choice.  The list below has them in table order, one of the
    orders a store can answer with; what is proved of a friend list is
    stated by membership, multiplicity, length or [Permutation], or
    compares two answers over the same [users] table. *)
Definition users_with_tg_id_in (db : DB) (ids : list string) : list User.row :=
  filter (fun u => existsb (String.eqb (User.tg_id u)) ids) (users db).

(** ** Inserts: db.add(row); db.commit(); db.refresh(row) *)

Definition tg_id_taken (db : DB) (tg_id : string) : bool :=
  existsb (fun u => String.eqb (User.tg_id u) tg_id) (users db).

Definition ref_link_taken (db : DB) (ref_link : string) : bool :=
  existsb (fun u => String.eqb (User.ref_link u) ref_link) (users db).

(** The commit of a new [users] row is refused when one of the two UNIQUE
    columns would repeat; otherwise the row gets the next primary key and
    goes to the end of the table. *)
Definition add_user (db : DB) (tg_id username ref_link : string)
  : result (User.row * DB) :=
  if tg_id_taken db tg_id || ref_link_taken db ref_link
  then Raise IntegrityError
  else
    let id := users_id_seq db + 1 in
    let user := User.mk id tg_id username ref_link in
    Ok (user,
        {| foreign_keys := foreign_keys db;
           users := users db ++ [user];
           referrals := referrals db;
           users_id_seq := id;
           referrals_id_seq := referrals_id_seq db |}).

(** A foreign key into users.tg_id is satisfied when the store does not
    enforce foreign keys or the referenced row is there. *)
Definition fk_ok (db : DB) (tg_id : string) : bool :=
  negb (foreign_keys db) || tg_id_taken db tg_id.

(** The commit of a new [referrals] row.  Columns the constructor call left
    out take the column defaults: [date] the clock reading [now]
    (default=datetime.utcnow) and [points] 0 (default=0). *)
Definition add_referral (db : DB) (now : datetime)
    (date : option datetime) (user_tg_id friend_tg_id : string)
    (points : option Z)
  : result (Referral.row * DB) :=
  if fk_ok db user_tg_id && fk_ok db friend_tg_id
  then
    let id := referrals_id_seq db + 1 in
    let referral :=
      Referral.mk id
        (match date with Some d => d | None => now end)
        user_tg_id friend_tg_id
        (match points with Some p => p | None => 0 end) in
    Ok (referral,
        {| foreign_keys := foreign_keys db;
           users := users db;
           referrals := referrals db ++ [referral];
           users_id_seq := users_id_seq db;
           referrals_id_seq := id |})
  else Raise IntegrityError.

(** ** Handlers *)

Definition base_url : string := "https://t.me/tma123_bot?startapp=".

(** def get_or_create_user(db, tg_id, username) *)
Definition get_or_create_user (db : DB) (tg_id username : string)
  : result (User.row * DB) :=
  match first (users_with_tg_id db tg_id) with
  | Some user => Ok (user, db)
  | None =>
      let ref_link := (base_url ++ tg_id)%string in
      add_user db tg_id username ref_link
  end.

(** POST /users/ *)
Definition create_user (db : DB) (tg_id username : string)
  : result (User.row * DB) :=
  get_or_create_user db tg_id username.

(** GET /users/{tg_id} *)
Definition get_user (db : DB) (tg_id : string) : result User.row :=
  match first (users_with_tg_id db tg_id) with
  | None => Raise (HTTPException 404 "User not found")
  | Some user => Ok user
  end.

(** GET /users/{tg_id}/friends *)
Definition get_user_friends (db : DB) (tg_id : string) : list User.row :=
  let referrals := referrals_of db tg_id in
  let friend_ids := map Referral.friend_tg_id referrals in
  let friends := users_with_tg_id_in db friend_ids in
  friends.

(** POST /referrals/ ; [now] is the clock reading at the insert. *)
Definition create_referral (db : DB) (now : datetime)
    (user_tg_id friend_tg_id : string)
  : result (Referral.row * DB) :=
  match first (referrals_with_pair db user_tg_id friend_tg_id) with
  | Some _ => Raise (HTTPException 400 "Referral already exists")
  | None => add_referral db now None user_tg_id friend_tg_id (Some 100)
  end.

(** GET /users/{tg_id}/referral_link ; the value under "referral_link". *)
Definition get_referral_link (db : DB) (tg_id : string) : result string :=
  match first (users_with_tg_id db tg_id) with
  | None => Raise (HTTPException 404 "User not found")
  | Some user => Ok (User.ref_link user)
  end.

(** sum(xs): left to right from 0. *)
Definition sum (xs : list Z) : Z := fold_left Z.add xs 0.

(** GET /users/{tg_id}/total_points ; the value under "total_points". *)
Definition get_total_points (db : DB) (tg_id : string) : Z :=
  let referrals := referrals_of db tg_id in
  let total_points := sum (map Referral.points referrals) in
  total_points.

(** ** The API as a transition system *)

(** One constructor per route; POST /referrals/ carries the clock reading
    at which its row would be inserted. *)
Inductive request :=
| POST_users (tg_id username : string)
| GET_users (tg_id : string)
| GET_users_friends (tg_id : string)
| POST_referrals (now : datetime) (user_tg_id friend_tg_id : string)
| GET_users_referral_link (tg_id : string)
| GET_users_total_points (tg_id : string).

(** What a handler hands back to the framework. *)
Inductive response :=
| RUser (user : User.row)
| RFriends (friends : list User.row)
| RReferral (referral : Referral.row)
| RReferralLink (referral_link : string)
| RTotalPoints (total_points : Z)
| RFault (e : exn).

(** A request served on [db].  A handler that raises leaves the tables as
    they were: nothing was committed and get_db closes the session. *)
Definition handle (db : DB) (req : request) : response * DB :=
  match req with
  | POST_users tg_id username =>
      match create_user db tg_id username with
      | Ok (user, db') => (RUser user, db')
      | Raise e => (RFault e, db)
      end
  | GET_users tg_id =>
      match get_user db tg_id with
      | Ok user => (RUser user, db)
      | Raise e => (RFault e, db)
      end
  | GET_users_friends tg_id => (RFriends (get_user_friends db tg_id), db)
  | POST_referrals now user_tg_id friend_tg_id =>
      match create_referral db now user_tg_id friend_tg_id with
      | Ok (referral, db') => (RReferral referral, db')
      | Raise e => (RFault e, db)
      end
  | GET_users_referral_link tg_id =>
      match get_referral_link db tg_id with
      | Ok link => (RReferralLink link, db)
      | Raise e => (RFault e, db)
      end
  | GET_users_total_points tg_id =>
      (RTotalPoints (get_total_points db tg_id), db)
  end.

(** Requests served one after the other. *)
Definition run (db : DB) (reqs : list request) : DB :=
  fold_left (fun d req => snd (handle d req)) reqs db.

(** ** Predicates on the store *)

Definition has_user (db : DB) (tg_id : string) : bool := tg_id_taken db tg_id.

Definition has_referral (db : DB) (user_tg_id friend_tg_id : string) : bool :=
  existsb (fun r => String.eqb (Referral.user_tg_id r) user_tg_id
                    && String.eqb (Referral.friend_tg_id r) friend_tg_id)
          (referrals db).

Fixpoint distinct (xs : list string) : bool :=
  match xs with
  | [] => true
  | x :: xs' => negb (existsb (String.eqb x) xs') && distinct xs'
  end.

(** The UNIQUE constraint on users.tg_id. *)
Definition unique_tg_ids (db : DB) : bool :=
  distinct (map User.tg_id (users db)).

(** Every stored link is the one get_or_create_user builds. *)
Definition links_generated (db : DB) : bool :=
  forallb (fun u => String.eqb (User.ref_link u)
                            (base_url ++ User.tg_id u)%string)
          (users db).

(** Every stored referral carries the 100 points create_referral passes. *)
Definition all_points_100 (db : DB) : bool :=
  forallb (fun r => Referral.points r =? 100) (referrals db).

(** The total as the specification words it, to compare with
    get_total_points: go through the [referrals] rows and add up the points
    of those whose user_tg_id is [tg_id]. *)
Fixpoint spec_total_points (tg_id : string) (rows : list Referral.row) : Z :=
  match rows with
  | [] => 0
  | r :: rows' =>
      (if String.eqb (Referral.user_tg_id r) tg_id
       then Referral.points r else 0)
      + spec_total_points tg_id rows'
  end.

(** How many rows of [rows] carry the external id [tg_id]. *)
Definition count_tg_id (tg_id : string) (rows : list User.row) : nat :=
  List.length (filter (fun u => String.eqb (User.tg_id u) tg_id) rows).

(** [l] extended at its end. *)
Definition extends {A : Type} (l l' : list A) : Prop :=
  exists added, l' = l ++ added.

(** No ordered pair (user_tg_id, friend_tg_id) is stored twice. *)
Fixpoint no_repeated_pair (rows : list Referral.row) : bool :=
  match rows with
  | [] => true
  | r :: rows' =>
      negb (existsb
              (fun r' => String.eqb (Referral.user_tg_id r')
                                    (Referral.user_tg_id r)
                         && String.eqb (Referral.friend_tg_id r')
                                       (Referral.friend_tg_id r))
              rows')
      && no_repeated_pair rows'
  end.

Definition unique_pairs (db : DB) : bool := no_repeated_pair (referrals db).

(** Both foreign keys of every [referrals] row point at a [users] row. *)
Definition referential (db : DB) : bool :=
  forallb (fun r => has_user db (Referral.user_tg_id r)
                    && has_user db (Referral.friend_tg_id r))
          (referrals db).

(** The fault a response carries, if it is one. *)
Definition fault_of (resp : response) : option exn :=
  match resp with
  | RFault e => Some e
  | _ => None
  end.

(** ** Sample stores *)

Definition alice : User.row :=
  User.mk 1 "111" "alice" "https://t.me/tma123_bot?startapp=111".
Definition bob : User.row :=
  User.mk 2 "222" "bob" "https://t.me/tma123_bot?startapp=222".
Definition carol : User.row :=
  User.mk 3 "333" "carol" "https://t.me/tma123_bot?startapp=333".

Definition three_users (fk : bool) : DB :=
  run (empty_db fk)
      [POST_users "111" "alice"; POST_users "222" "bob";
       POST_users "333" "carol"].

Definition two_referrals (fk : bool) : DB :=
  run (three_users fk)
      [POST_referrals 10 "111" "222"; POST_referrals 20 "111" "333"].

(** A [referrals] table in which the pair ("111","222") is stored twice, as
    two racing requests can leave it. *)
Definition doubled_referral : DB :=
  {| foreign_keys := true;
     users := [alice; bob];
     referrals := [Referral.mk 1 10 "111" "222" 100;
                   Referral.mk 2 11 "111" "222" 100];
     users_id_seq := 2;
     referrals_id_seq := 2 |}.

(** Evaluates a lookup on a store written out row by row, with the known
    comparisons of its ids in the hypotheses. *)
Ltac eval_lookup :=
  unfold has_user, has_referral, fk_ok, tg_id_taken, ref_link_taken;
  cbn;
  repeat match goal with
         | H : String.eqb _ _ = _ |- _ => rewrite !H
         end;
  cbn; rewrite ?orb_true_r; reflexivity.

(** * Properties *)

(** ** Queries over a table *)

Section Queries.
Context {A : Type} (p : A -> bool).

Lemma first_filter_None (l : list A) :
  first (filter p l) = None <-> existsb p l = false.
Proof.
  induction l as [|a l IH]; simpl.
  - tauto.
  - destruct (p a); simpl.
    + split; discriminate.
    + exact IH.
Qed.

Lemma first_filter_Some (l : list A) (x : A) :
  first (filter p l) = Some x -> In x l /\ p x = true.
Proof.
  induction l as [|a l IH]; simpl.
  - discriminate.
  - destruct (p a) eqn:Ha; simpl.
    + intros [= <-]. auto.
    + intros H. destruct (IH H). auto.
Qed.

Lemma first_filter_is_Some (l : list A) :
  existsb p l = true -> exists x, first (filter p l) = Some x.
Proof.
  intros H. destruct (first (filter p l)) as [x|] eqn:E.
  - now exists x.
  - apply first_filter_None in E. congruence.
Qed.

Lemma first_filter_app (l l' : list A) (x : A) :
  first (filter p l) = Some x -> first (filter p (l ++ l')) = Some x.
Proof.
  rewrite filter_app. destruct (filter p l); simpl.
  - discriminate.
  - auto.
Qed.

Lemma filter_nil_of_first (l : list A) :
  first (filter p l) = None -> filter p l = [].
Proof. destruct (filter p l); simpl; [reflexivity | discriminate]. Qed.
End Queries.

Lemma extends_refl {A : Type} (l : list A) : extends l l.
Proof. exists []. now rewrite app_nil_r. Qed.

Lemma extends_trans {A : Type} (l1 l2 l3 : list A) :
  extends l1 l2 -> extends l2 l3 -> extends l1 l3.
Proof.
  intros [a ->] [b ->]. exists (a ++ b). now rewrite app_assoc.
Qed.

Lemma extends_one {A : Type} (l : list A) (x : A) : extends l (l ++ [x]).
Proof. now exists [x]. Qed.

(** ** What the two inserts do *)

Lemma add_user_Ok db tg name link u db' :
  add_user db tg name link = Ok (u, db') ->
  u = User.mk (users_id_seq db + 1) tg name link /\
  users db' = users db ++ [u] /\
  referrals db' = referrals db /\
  foreign_keys db' = foreign_keys db /\
  tg_id_taken db tg = false /\ ref_link_taken db link = false.
Proof.
  unfold add_user.
  destruct (tg_id_taken db tg) eqn:Et; simpl; [discriminate|].
  destruct (ref_link_taken db link) eqn:El; simpl; [discriminate|].
  intros [= <- <-]. simpl. repeat split; reflexivity.
Qed.

Lemma add_referral_Ok db now d a b p r db' :
  add_referral db now d a b p = Ok (r, db') ->
  r = Referral.mk (referrals_id_seq db + 1)
        (match d with Some x => x | None => now end) a b
        (match p with Some x => x | None => 0 end) /\
  referrals db' = referrals db ++ [r] /\
  users db' = users db /\
  foreign_keys db' = foreign_keys db /\
  fk_ok db a = true /\ fk_ok db b = true.
Proof.
  unfold add_referral.
  destruct (fk_ok db a) eqn:Ea; simpl; [|discriminate].
  destruct (fk_ok db b) eqn:Eb; simpl; [|discriminate].
  intros [= <- <-]. simpl. repeat split; reflexivity.
Qed.

(** ** Every request only reads or appends *)

Lemma create_user_frame db tg name u db' :
  create_user db tg name = Ok (u, db') ->
  extends (users db) (users db') /\ referrals db' = referrals db /\
  foreign_keys db' = foreign_keys db.
Proof.
  unfold create_user, get_or_create_user.
  destruct (first (users_with_tg_id db tg)).
  - intros [= <- <-]. auto using extends_refl.
  - intros H. apply add_user_Ok in H as (_ & -> & -> & -> & _).
    auto using extends_one.
Qed.

Lemma create_referral_frame db now a b r db' :
  create_referral db now a b = Ok (r, db') ->
  users db' = users db /\ referrals db' = referrals db ++ [r] /\
  foreign_keys db' = foreign_keys db.
Proof.
  unfold create_referral.
  destruct (first (referrals_with_pair db a b)); [discriminate|].
  intros H. apply add_referral_Ok in H as (_ & -> & -> & -> & _). auto.
Qed.

Lemma handle_frame db req :
  extends (users db) (users (snd (handle db req))) /\
  extends (referrals db) (referrals (snd (handle db req))) /\
  foreign_keys (snd (handle db req)) = foreign_keys db.
Proof.
  destruct req as [tg name|tg|tg|now a b|tg|tg]; simpl;
    auto using extends_refl.
  - destruct (create_user db tg name) as [[u db']|e] eqn:E; simpl;
      auto using extends_refl.
    apply create_user_frame in E as (? & -> & ->). auto using extends_refl.
  - destruct (get_user db tg); simpl; auto using extends_refl.
  - destruct (create_referral db now a b) as [[r db']|e] eqn:E; simpl;
      auto using extends_refl.
    apply create_referral_frame in E as (-> & -> & ->).
    auto using extends_refl, extends_one.
  - destruct (get_referral_link db tg); simpl; auto using extends_refl.
Qed.

Lemma run_cons db req reqs :
  run db (req :: reqs) = run (snd (handle db req)) reqs.
Proof. reflexivity. Qed.

Lemma run_frame reqs : forall db,
  extends (users db) (users (run db reqs)) /\
  extends (referrals db) (referrals (run db reqs)) /\
  foreign_keys (run db reqs) = foreign_keys db.
Proof.
  induction reqs as [|req reqs IH]; intros db.
  - simpl. auto using extends_refl.
  - rewrite run_cons.
    destruct (handle_frame db req) as (Hu & Hr & Hf).
    destruct (IH (snd (handle db req))) as (Hu' & Hr' & Hf').
    repeat split; eauto using extends_trans; congruence.
Qed.

(** ** Users: get-or-create *)

Lemma eqb_refl_true (s : string) : String.eqb s s = true.
Proof. apply String.eqb_refl. Qed.

Lemma append_inj_l (s a b : string) :
  (s ++ a)%string = (s ++ b)%string -> a = b.
Proof.
  induction s as [|c s IH]; simpl.
  - auto.
  - intros [= H]. auto.
Qed.

Lemma create_user_existing db tg name u :
  first (users_with_tg_id db tg) = Some u ->
  create_user db tg name = Ok (u, db).
Proof.
  unfold create_user, get_or_create_user. now intros ->.
Qed.

Lemma create_user_lookup db tg name u db' :
  create_user db tg name = Ok (u, db') ->
  first (users_with_tg_id db' tg) = Some u.
Proof.
  unfold create_user, get_or_create_user.
  destruct (first (users_with_tg_id db tg)) as [v|] eqn:E.
  - intros [= <- <-]. exact E.
  - intros H. apply add_user_Ok in H as (-> & Hu & _).
    unfold users_with_tg_id in *. rewrite Hu, filter_app.
    rewrite (filter_nil_of_first _ _ E). simpl.
    now rewrite eqb_refl_true.
Qed.

Lemma lookup_stable db tg u reqs :
  first (users_with_tg_id db tg) = Some u ->
  first (users_with_tg_id (run db reqs) tg) = Some u.
Proof.
  intros H. destruct (run_frame reqs db) as ([added E] & _).
  unfold users_with_tg_id in *. rewrite E. now apply first_filter_app.
Qed.

Lemma lookup_None_iff db tg :
  first (users_with_tg_id db tg) = None <-> has_user db tg = false.
Proof. apply first_filter_None. Qed.

(** Stores whose links were all generated keep that property, and in them a
    fresh tg_id never collides on ref_link. *)
Lemma links_generated_fresh db tg :
  links_generated db = true -> has_user db tg = false ->
  ref_link_taken db (base_url ++ tg)%string = false.
Proof.
  unfold links_generated, has_user, tg_id_taken, ref_link_taken.
  induction (users db) as [|u l IH]; cbn [existsb forallb].
  - reflexivity.
  - intros [Hu Hl]%andb_prop [Hn Hn']%orb_false_elim.
    rewrite (IH Hl Hn'), orb_false_r.
    apply String.eqb_eq in Hu. rewrite Hu.
    destruct (String.eqb_spec (base_url ++ User.tg_id u) (base_url ++ tg))
      as [E|]; [|reflexivity].
    apply append_inj_l in E. rewrite E, eqb_refl_true in Hn. discriminate.
Qed.

Lemma create_user_links_generated db tg name u db' :
  links_generated db = true ->
  create_user db tg name = Ok (u, db') ->
  links_generated db' = true.
Proof.
  unfold create_user, get_or_create_user.
  destruct (first (users_with_tg_id db tg)).
  - now intros H [= <- <-].
  - intros H E. apply add_user_Ok in E as (-> & Hu & _).
    unfold links_generated in *. rewrite Hu, forallb_app, H. simpl.
    now rewrite eqb_refl_true.
Qed.

Lemma create_user_succeeds db tg name :
  links_generated db = true ->
  exists u db', create_user db tg name = Ok (u, db').
Proof.
  intros H. unfold create_user, get_or_create_user.
  destruct (first (users_with_tg_id db tg)) as [v|] eqn:E.
  - eauto.
  - apply lookup_None_iff in E. unfold add_user.
    unfold has_user in E. rewrite E, (links_generated_fresh db tg H E).
    simpl. eauto.
Qed.

Lemma handle_links_generated db req :
  links_generated db = true -> links_generated (snd (handle db req)) = true.
Proof.
  intros H. destruct req as [tg name|tg|tg|now a b|tg|tg]; simpl; auto.
  - destruct (create_user db tg name) as [[u db']|e] eqn:E; simpl; auto.
    eapply create_user_links_generated; eauto.
  - destruct (get_user db tg); auto.
  - destruct (create_referral db now a b) as [[r db']|e] eqn:E; simpl; auto.
    apply create_referral_frame in E as (Hu & _).
    unfold links_generated in *. now rewrite Hu.
  - destruct (get_referral_link db tg); auto.
Qed.

Lemma run_links_generated reqs : forall db,
  links_generated db = true -> links_generated (run db reqs) = true.
Proof.
  induction reqs as [|req reqs IH]; intros db H; [exact H|].
  rewrite run_cons. apply IH. now apply handle_links_generated.
Qed.

(** In every store the API built up from the empty one, POST /users/
    answers with a row and never with a fault. *)
Lemma create_user_never_raises fk reqs tg name :
  exists u db', create_user (run (empty_db fk) reqs) tg name = Ok (u, db').
Proof.
  apply create_user_succeeds, run_links_generated. reflexivity.
Qed.

(** C1. Once a call of create_user has returned a row for [tg_id], every
    later call with that [tg_id] (directly after, or after any further
    requests, and whatever username it sends) raises nothing, returns that
    same row, with the same ref_link, and leaves the store exactly as it
    found it, so no second row appears and the number of rows stays the
    same. *)
Theorem create_user_repeat db tg name u db1 :
  create_user db tg name = Ok (u, db1) ->
  forall (later : list request) (name' : string),
    let db2 := run db1 later in
    create_user db2 tg name' = Ok (u, db2) /\
    (forall u' db3, create_user db2 tg name' = Ok (u', db3) ->
       User.ref_link u' = User.ref_link u /\
       List.length (users db3) = List.length (users db2)) /\
    In u (users db2).
Proof.
  intros H later name' db2.
  assert (L : first (users_with_tg_id db2 tg) = Some u)
    by (apply lookup_stable; eapply create_user_lookup; eauto).
  pose proof (create_user_existing db2 tg name' u L) as R.
  split; [exact R|split].
  - intros u' db3 E. rewrite R in E. injection E as <- <-. auto.
  - now apply first_filter_Some in L.
Qed.

Lemma create_user_repeat_witness :
  create_user (three_users true) "111" "alice2" = Ok (alice, three_users true).
Proof.
  exact (proj1 (create_user_repeat (empty_db true) "111" "alice" alice
                  (run (empty_db true) [POST_users "111" "alice"])
                  eq_refl
                  [POST_users "222" "bob"; POST_users "333" "carol"]
                  "alice2")).
Defined.

(** C5. For a tg_id that has no row yet, the row create_user stores and
    returns carries the link "https://t.me/tma123_bot?startapp=" followed
    by the tg_id, a function of the tg_id alone (the username and the rest
    of the store play no part); it is the link get_referral_link then
    reads back.  Where every stored link was generated this way, the call
    does return such a row. *)
Theorem new_user_ref_link db tg name :
  has_user db tg = false ->
  (forall u db', create_user db tg name = Ok (u, db') ->
     User.ref_link u = ("https://t.me/tma123_bot?startapp=" ++ tg)%string /\
     User.tg_id u = tg /\ User.username u = name /\
     users db' = users db ++ [u] /\
     get_referral_link db' tg =
       Ok ("https://t.me/tma123_bot?startapp=" ++ tg)%string) /\
  (links_generated db = true ->
   exists u db', create_user db tg name = Ok (u, db')).
Proof.
  intros Hn. split.
  - intros u db' E. pose proof (create_user_lookup _ _ _ _ _ E) as L.
    unfold get_referral_link. rewrite L. revert E.
    unfold create_user, get_or_create_user.
    apply lookup_None_iff in Hn. rewrite Hn.
    intros E. apply add_user_Ok in E as (-> & Hu & _). auto.
  - apply create_user_succeeds.
Qed.

Lemma new_user_ref_link_witness :
  User.ref_link alice = "https://t.me/tma123_bot?startapp=111" /\
  get_referral_link (run (empty_db false) [POST_users "111" "alice"]) "111"
    = Ok "https://t.me/tma123_bot?startapp=111".
Proof.
  destruct (proj1 (new_user_ref_link (empty_db false) "111" "alice" eq_refl)
              alice (run (empty_db false) [POST_users "111" "alice"])
              eq_refl) as (H1 & _ & _ & _ & H2).
  exact (conj H1 H2).
Defined.

(** The example of the specification, run from the empty store. *)
Example create_user_111 fk :
  handle (empty_db fk) (POST_users "111" "alice")
  = (RUser (User.mk 1 "111" "alice" "https://t.me/tma123_bot?startapp=111"),
     run (empty_db fk) [POST_users "111" "alice"]).
Proof. destruct fk; reflexivity. Qed.

(** ** Users: lookups *)

Lemma has_user_iff db tg :
  has_user db tg = true <-> exists u, In u (users db) /\ User.tg_id u = tg.
Proof.
  unfold has_user, tg_id_taken. rewrite existsb_exists.
  split; intros (u & Hu & E); exists u; split; auto;
    now apply String.eqb_eq.
Qed.

Lemma has_user_false_iff db tg :
  has_user db tg = false <->
  ~ exists u, In u (users db) /\ User.tg_id u = tg.
Proof.
  rewrite <- has_user_iff. destruct (has_user db tg); split; intros;
    congruence.
Qed.

Lemma distinct_tg_ids_inj (l : list User.row) :
  distinct (map User.tg_id l) = true ->
  forall u v, In u l -> In v l -> User.tg_id u = User.tg_id v -> u = v.
Proof.
  induction l as [|a l IH]; simpl; [tauto|].
  intros [Ha Hl]%andb_prop u v [->|Hu] [->|Hv] E; auto.
  - apply negb_true_iff in Ha. exfalso.
    assert (existsb (String.eqb (User.tg_id u)) (map User.tg_id l) = true).
    { apply existsb_exists. exists (User.tg_id v). split.
      - now apply in_map.
      - now apply String.eqb_eq. }
    congruence.
  - apply negb_true_iff in Ha. exfalso.
    assert (existsb (String.eqb (User.tg_id v)) (map User.tg_id l) = true).
    { apply existsb_exists. exists (User.tg_id u). split.
      - now apply in_map.
      - now apply String.eqb_eq. }
    congruence.
Qed.

Lemma lookup_unique db tg u :
  unique_tg_ids db = true -> In u (users db) -> User.tg_id u = tg ->
  first (users_with_tg_id db tg) = Some u.
Proof.
  intros Hd Hu E.
  destruct (first (users_with_tg_id db tg)) as [v|] eqn:L.
  - apply first_filter_Some in L as (Hv & Ev). apply String.eqb_eq in Ev.
    f_equal. apply (distinct_tg_ids_inj _ Hd); congruence.
  - apply lookup_None_iff, has_user_false_iff in L. exfalso. eauto.
Qed.

(** C6. get_user and get_referral_link raise the 404 "User not found"
    exactly when no row of [users] has the tg_id, and raise nothing else.
    Otherwise get_user returns a stored row with that tg_id and
    get_referral_link returns the ref_link stored in that same row; under
    the UNIQUE constraint on tg_id it is the only such row. *)
Theorem lookup_not_found_iff db tg :
  (get_user db tg = Raise NotFound <->
   ~ exists u, In u (users db) /\ User.tg_id u = tg) /\
  (get_referral_link db tg = Raise NotFound <->
   ~ exists u, In u (users db) /\ User.tg_id u = tg) /\
  (forall e, get_user db tg = Raise e \/ get_referral_link db tg = Raise e ->
     e = NotFound) /\
  (forall u, get_user db tg = Ok u ->
     In u (users db) /\ User.tg_id u = tg /\
     get_referral_link db tg = Ok (User.ref_link u)) /\
  (forall u, In u (users db) -> User.tg_id u = tg ->
     exists v, get_user db tg = Ok v /\
               get_referral_link db tg = Ok (User.ref_link v) /\
               (unique_tg_ids db = true -> v = u)).
Proof.
  rewrite <- has_user_false_iff, <- lookup_None_iff.
  unfold get_user, get_referral_link, NotFound.
  destruct (first (users_with_tg_id db tg)) as [w|] eqn:L.
  - repeat split; try discriminate.
    + intros e [H|H]; discriminate.
    + injection H as <-. now apply first_filter_Some in L.
    + injection H as <-. apply first_filter_Some in L as (_ & E).
      now apply String.eqb_eq.
    + now injection H as <-.
    + intros u Hu E. exists w. repeat split.
      intros Hd. pose proof (lookup_unique db tg u Hd Hu E). congruence.
  - repeat split; try discriminate; auto.
    + intros e [[= <-]|[= <-]]; reflexivity.
    + intros u Hu E. apply lookup_None_iff, has_user_false_iff in L.
      exfalso. eauto.
Qed.

(** ** Referrals *)

Lemma has_referral_iff db a b :
  has_referral db a b = true <->
  exists r, In r (referrals db) /\
            Referral.user_tg_id r = a /\ Referral.friend_tg_id r = b.
Proof.
  unfold has_referral. rewrite existsb_exists.
  split; intros (r & Hr & E); exists r; split; auto.
  - apply andb_prop in E as [E1 E2]. now rewrite String.eqb_eq in E1, E2.
  - destruct E as [<- <-]. now rewrite !eqb_refl_true.
Qed.

Lemma pair_lookup_None_iff db a b :
  first (referrals_with_pair db a b) = None <-> has_referral db a b = false.
Proof. apply first_filter_None. Qed.

Lemma create_referral_cases db now a b :
  create_referral db now a b =
    if has_referral db a b then Raise Conflict
    else add_referral db now None a b (Some 100).
Proof.
  unfold create_referral.
  destruct (first (referrals_with_pair db a b)) eqn:E.
  - destruct (has_referral db a b) eqn:H; [reflexivity|].
    apply pair_lookup_None_iff in H. congruence.
  - apply pair_lookup_None_iff in E. now rewrite E.
Qed.

Lemma has_referral_app_one db db' r a b :
  referrals db' = referrals db ++ [r] ->
  has_referral db' a b =
    has_referral db a b
    || (String.eqb (Referral.user_tg_id r) a
        && String.eqb (Referral.friend_tg_id r) b).
Proof.
  unfold has_referral. intros ->. rewrite existsb_app. simpl.
  now rewrite orb_false_r.
Qed.

Lemma has_user_same_users db db' tg :
  users db' = users db -> has_user db' tg = has_user db tg.
Proof. unfold has_user, tg_id_taken. now intros ->. Qed.

Lemma fk_ok_same db db' tg :
  users db' = users db -> foreign_keys db' = foreign_keys db ->
  fk_ok db' tg = fk_ok db tg.
Proof. unfold fk_ok, tg_id_taken. now intros -> ->. Qed.

(** C2. create_referral raises the 400 "Referral already exists" exactly
    when [referrals] already holds a row with the same ordered pair, and
    then the store stays as it was.  Right after (a,b) was created a second
    (a,b) is refused, while the reversed pair (b,a) is not a duplicate of
    it: with a and b different and no (b,a) row stored before, creating
    (b,a) succeeds. *)
Theorem create_referral_conflict_iff db now a b :
  (create_referral db now a b = Raise Conflict <->
   exists r, In r (referrals db) /\
             Referral.user_tg_id r = a /\ Referral.friend_tg_id r = b) /\
  (create_referral db now a b = Raise Conflict ->
   handle db (POST_referrals now a b) = (RFault Conflict, db)) /\
  (forall r db1 now',
     create_referral db now a b = Ok (r, db1) ->
     create_referral db1 now' a b = Raise Conflict /\
     (a <> b -> has_referral db b a = false ->
      exists r' db2,
        create_referral db1 now' b a = Ok (r', db2) /\
        referrals db2 = referrals db ++ [r; r'])).
Proof.
  rewrite <- has_referral_iff. split; [|split].
  - rewrite create_referral_cases.
    destruct (has_referral db a b); [tauto|].
    split; [|discriminate].
    unfold add_referral.
    destruct (fk_ok db a && fk_ok db b); discriminate.
  - simpl. now intros ->.
  - intros r db1 now' E. pose proof E as F.
    apply create_referral_frame in F as (Hu & Hr & Hf).
    rewrite create_referral_cases in E.
    destruct (has_referral db a b) eqn:Hab; [discriminate|].
    apply add_referral_Ok in E as (Er & _ & _ & _ & Fa & Fb).
    split.
    + rewrite create_referral_cases, (has_referral_app_one db db1 r a b Hr).
      rewrite Er. simpl. now rewrite !eqb_refl_true, orb_true_r.
    + intros Hne Hba.
      rewrite create_referral_cases, (has_referral_app_one db db1 r b a Hr).
      rewrite Hba, Er. simpl.
      destruct (String.eqb_spec a b) as [|_]; [contradiction|]. simpl.
      unfold add_referral.
      rewrite (fk_ok_same db db1 a Hu Hf), (fk_ok_same db db1 b Hu Hf).
      rewrite Fa, Fb. simpl. do 2 eexists. split; [reflexivity|].
      simpl. rewrite Hr, <- app_assoc. now subst r.
Qed.

(** The scenario of the specification: (A,B), then (A,B) again, then
    (B,A). *)
Example referral_direction_matters fk :
  exists r1 db1 r2 db2,
    create_referral (three_users fk) 10 "111" "222" = Ok (r1, db1) /\
    create_referral db1 11 "111" "222" = Raise (HTTPException 400 "Referral already exists") /\
    handle db1 (POST_referrals 11 "111" "222") = (RFault Conflict, db1) /\
    create_referral db1 12 "222" "111" = Ok (r2, db2) /\
    referrals db2 = [r1; r2].
Proof. destruct fk; do 4 eexists; repeat split. Qed.

Lemma handle_all_points_100 db req :
  all_points_100 db = true -> all_points_100 (snd (handle db req)) = true.
Proof.
  intros H. destruct req as [tg name|tg|tg|now a b|tg|tg]; simpl; auto.
  - destruct (create_user db tg name) as [[u db']|e] eqn:E; simpl; auto.
    apply create_user_frame in E as (_ & Hr & _).
    unfold all_points_100 in *. now rewrite Hr.
  - destruct (get_user db tg); auto.
  - destruct (create_referral db now a b) as [[r db']|e] eqn:E; simpl; auto.
    pose proof E as F. apply create_referral_frame in F as (_ & Hr & _).
    rewrite create_referral_cases in E.
    destruct (has_referral db a b); [discriminate|].
    apply add_referral_Ok in E as (Er & _).
    unfold all_points_100 in *. rewrite Hr, forallb_app, H, Er. reflexivity.
  - destruct (get_referral_link db tg); auto.
Qed.

Lemma run_all_points_100 reqs : forall db,
  all_points_100 db = true -> all_points_100 (run db reqs) = true.
Proof.
  induction reqs as [|req reqs IH]; intros db H; [exact H|].
  rewrite run_cons. apply IH. now apply handle_all_points_100.
Qed.

(** C3. When no row with the ordered pair is stored, a create_referral that
    returns has appended exactly one row to [referrals] and returns it:
    the pair as given, 100 points, the clock reading of the insert as date;
    [users] is untouched.  It does return whenever the store accepts the
    two foreign keys.  Hence every row of a [referrals] table filled
    through the API has 100 points. *)
Theorem create_referral_inserts db now a b :
  has_referral db a b = false ->
  (forall r db',
     create_referral db now a b = Ok (r, db') ->
     referrals db' = referrals db ++ [r] /\
     users db' = users db /\
     Referral.points r = 100 /\ Referral.date r = now /\
     Referral.user_tg_id r = a /\ Referral.friend_tg_id r = b /\
     List.length (referrals db') = S (List.length (referrals db))) /\
  (fk_ok db a = true -> fk_ok db b = true ->
   exists r db', create_referral db now a b = Ok (r, db')) /\
  (forall fk reqs r,
     In r (referrals (run (empty_db fk) reqs)) -> Referral.points r = 100).
Proof.
  intros Hn. rewrite create_referral_cases, Hn. split; [|split].
  - intros r db' E. apply add_referral_Ok in E as (Er & Hr & Hu & _).
    rewrite Hr, length_app, Er. simpl.
    repeat split; auto. apply Nat.add_1_r.
  - intros Fa Fb. unfold add_referral. rewrite Fa, Fb. simpl. eauto.
  - intros fk reqs r Hr.
    assert (H : all_points_100 (run (empty_db fk) reqs) = true)
      by (apply run_all_points_100; reflexivity).
    unfold all_points_100 in H. rewrite forallb_forall in H.
    now apply Z.eqb_eq, H.
Qed.

Lemma create_referral_inserts_witness :
  let r := Referral.mk 1 10 "111" "222" 100 in
  let db' := run (three_users true) [POST_referrals 10 "111" "222"] in
  create_referral (three_users true) 10 "111" "222" = Ok (r, db') /\
  referrals db' = referrals (three_users true) ++ [r] /\
  Referral.points r = 100 /\ Referral.date r = 10.
Proof.
  intros r db'.
  destruct (proj1 (create_referral_inserts (three_users true) 10 "111" "222"
                     eq_refl) r db' eq_refl) as (Hr & _ & Hp & Hd & _).
  exact (conj eq_refl (conj Hr (conj Hp Hd))).
Defined.




(** ** Points *)

Lemma fold_left_add_acc (xs : list Z) : forall acc,
  fold_left Z.add xs acc = acc + fold_left Z.add xs 0.
Proof.
  induction xs as [|x xs IH]; intros acc; simpl.
  - lia.
  - rewrite IH, (IH x). lia.
Qed.

Lemma sum_cons x xs : sum (x :: xs) = x + sum xs.
Proof. unfold sum. simpl. now rewrite fold_left_add_acc. Qed.

Lemma sum_app xs ys : sum (xs ++ ys) = sum xs + sum ys.
Proof.
  induction xs as [|x xs IH]; simpl.
  - reflexivity.
  - rewrite !sum_cons, IH. lia.
Qed.

Lemma total_points_as_spec db tg :
  get_total_points db tg = spec_total_points tg (referrals db).
Proof.
  unfold get_total_points, referrals_of.
  induction (referrals db) as [|r l IH]; simpl.
  - reflexivity.
  - destruct (String.eqb (Referral.user_tg_id r) tg); simpl.
    + now rewrite sum_cons, IH.
    + now rewrite IH.
Qed.

Lemma total_points_after_create db now a b r db' tg :
  create_referral db now a b = Ok (r, db') ->
  get_total_points db' tg =
    get_total_points db tg + (if String.eqb a tg then 100 else 0).
Proof.
  intros E. pose proof E as F.
  apply create_referral_frame in F as (_ & Hr & _).
  rewrite create_referral_cases in E.
  destruct (has_referral db a b); [discriminate|].
  apply add_referral_Ok in E as (Er & _).
  unfold get_total_points, referrals_of.
  rewrite Hr, filter_app, map_app, sum_app. f_equal.
  rewrite Er. simpl. now destruct (String.eqb a tg).
Qed.

(** C4. get_total_points is the sum of the points of exactly the
    [referrals] rows whose user_tg_id is the given id; it is 0 when there
    is no such row, whether or not [users] has a row for the id; every
    referral created for a user adds its 100 points to that user's total
    and to nobody else's, so two referrals (A,B) and (A,C) bring a total
    of 0 to 200. *)
Theorem get_total_points_sums :
  (forall db tg,
     get_total_points db tg = spec_total_points tg (referrals db)) /\
  (forall db tg,
     (forall r, In r (referrals db) -> Referral.user_tg_id r <> tg) ->
     get_total_points db tg = 0) /\
  (forall db now a b r db' tg,
     create_referral db now a b = Ok (r, db') ->
     get_total_points db' tg =
       get_total_points db tg + (if String.eqb a tg then 100 else 0)) /\
  (forall db t1 t2 a b c r1 db1 r2 db2,
     get_total_points db a = 0 ->
     create_referral db t1 a b = Ok (r1, db1) ->
     create_referral db1 t2 a c = Ok (r2, db2) ->
     get_total_points db2 a = 200) /\
  (forall fk,
     get_total_points (empty_db fk) "111" = 0 /\
     get_total_points (three_users fk) "111" = 0 /\
     get_total_points (two_referrals fk) "111" = 200 /\
     get_total_points (two_referrals fk) "222" = 0).
Proof.
  split; [|split; [|split; [|split]]].
  - exact total_points_as_spec.
  - intros db tg H. rewrite total_points_as_spec.
    induction (referrals db) as [|r l IH]; simpl; [reflexivity|].
    destruct (String.eqb_spec (Referral.user_tg_id r) tg) as [E|_].
    + exfalso. apply (H r); simpl; auto.
    + rewrite IH; [reflexivity|]. intros r' Hr'. apply H. now right.
  - exact total_points_after_create.
  - intros db t1 t2 a b c r1 db1 r2 db2 H0 E1 E2.
    rewrite (total_points_after_create _ _ _ _ _ _ a E2).
    rewrite (total_points_after_create _ _ _ _ _ _ a E1).
    rewrite H0, eqb_refl_true. reflexivity.
  - intros fk. destruct fk; repeat split.
Qed.

(** The closing example of the specification: users "111" and "222", the
    referral ("111","222") with 100 points, and a total of 100. *)
Example total_points_111 fk :
  let db := run (empty_db fk)
              [POST_users "111" "alice"; POST_users "222" "bob"] in
  handle db (POST_referrals 10 "111" "222")
    = (RReferral (Referral.mk 1 10 "111" "222" 100),
       run db [POST_referrals 10 "111" "222"]) /\
  get_total_points (run db [POST_referrals 10 "111" "222"]) "111" = 100.
Proof. destruct fk; split; reflexivity. Qed.

(** ** Friends *)

Lemma friend_ids_has_referral db a b :
  existsb (String.eqb b) (map Referral.friend_tg_id (referrals_of db a))
  = has_referral db a b.
Proof.
  unfold referrals_of, has_referral.
  induction (referrals db) as [|r l IH]; simpl; [reflexivity|].
  destruct (String.eqb (Referral.user_tg_id r) a); simpl.
  - now rewrite IH, (String.eqb_sym b).
  - exact IH.
Qed.

Lemma friends_as_filter db a :
  get_user_friends db a =
    filter (fun u => has_referral db a (User.tg_id u)) (users db).
Proof.
  unfold get_user_friends, users_with_tg_id_in.
  apply filter_ext. intros u. apply friend_ids_has_referral.
Qed.

Lemma In_friends_iff db a u :
  In u (get_user_friends db a) <->
  In u (users db) /\
  exists r, In r (referrals db) /\ Referral.user_tg_id r = a /\
            Referral.friend_tg_id r = User.tg_id u.
Proof.
  now rewrite friends_as_filter, filter_In, has_referral_iff.
Qed.

Lemma handle_POST_users_fresh db tg name :
  has_user db tg = false ->
  ref_link_taken db (base_url ++ tg)%string = false ->
  handle db (POST_users tg name) =
    (RUser (User.mk (users_id_seq db + 1) tg name (base_url ++ tg)%string),
     {| foreign_keys := foreign_keys db;
        users := users db
                 ++ [User.mk (users_id_seq db + 1) tg name
                       (base_url ++ tg)%string];
        referrals := referrals db;
        users_id_seq := users_id_seq db + 1;
        referrals_id_seq := referrals_id_seq db |}).
Proof.
  intros Hn Hl. unfold handle, create_user, get_or_create_user.
  apply lookup_None_iff in Hn as L. rewrite L. unfold add_user.
  unfold has_user in Hn. now rewrite Hn, Hl.
Qed.

Lemma handle_POST_referrals_fresh db now a b :
  has_referral db a b = false ->
  fk_ok db a = true -> fk_ok db b = true ->
  handle db (POST_referrals now a b) =
    (RReferral (Referral.mk (referrals_id_seq db + 1) now a b 100),
     {| foreign_keys := foreign_keys db;
        users := users db;
        referrals := referrals db
                     ++ [Referral.mk (referrals_id_seq db + 1) now a b 100];
        users_id_seq := users_id_seq db;
        referrals_id_seq := referrals_id_seq db + 1 |}).
Proof.
  intros Hn Fa Fb. unfold handle. rewrite create_referral_cases, Hn.
  unfold add_referral. now rewrite Fa, Fb.
Qed.

Lemma friends_scenario fk a b c na nb nc t1 t2 :
  distinct [a; b; c] = true ->
  Permutation
    (get_user_friends
       (run (empty_db fk)
          [POST_users a na; POST_users b nb; POST_users c nc;
           POST_referrals t1 a b; POST_referrals t2 a c]) a)
    [User.mk 2 b nb (base_url ++ b)%string;
     User.mk 3 c nc (base_url ++ c)%string].
Proof.
  cbn [distinct existsb]. rewrite !orb_false_r.
  intros [[Hab Hac]%negb_true_iff%orb_false_elim [Hbc _]%andb_prop]%andb_prop.
  apply negb_true_iff in Hbc.
  assert (Hba := Hab). rewrite String.eqb_sym in Hba.
  assert (Hca := Hac). rewrite String.eqb_sym in Hca.
  assert (Hcb := Hbc). rewrite String.eqb_sym in Hcb.
  assert (Haa := String.eqb_refl a).
  assert (Hbb := String.eqb_refl b).
  assert (Hcc := String.eqb_refl c).
  rewrite run_cons, handle_POST_users_fresh by eval_lookup. cbn [snd].
  rewrite run_cons, handle_POST_users_fresh by eval_lookup. cbn [snd].
  rewrite run_cons, handle_POST_users_fresh by eval_lookup. cbn [snd].
  rewrite run_cons, handle_POST_referrals_fresh by eval_lookup. cbn [snd].
  rewrite run_cons, handle_POST_referrals_fresh by eval_lookup. cbn [snd].
  rewrite friends_as_filter. eval_lookup.
Qed.

(** C7. get_user_friends returns exactly the [users] rows whose tg_id is
    the friend_tg_id of some [referrals] row with the given user_tg_id, in
    no particular order.  After users A, B, C (pairwise different) and
    referrals (A,B) and (A,C) on the empty store, the friends of A are the
    row of B and the row of C, each once and nothing else, in whichever
    order the store answers. *)
Theorem get_user_friends_spec :
  (forall db tg u,
     In u (get_user_friends db tg) <->
     In u (users db) /\
     exists r, In r (referrals db) /\ Referral.user_tg_id r = tg /\
               Referral.friend_tg_id r = User.tg_id u) /\
  (forall fk a b c na nb nc t1 t2,
     distinct [a; b; c] = true ->
     Permutation
       (get_user_friends
          (run (empty_db fk)
             [POST_users a na; POST_users b nb; POST_users c nc;
              POST_referrals t1 a b; POST_referrals t2 a c]) a)
       [User.mk 2 b nb ("https://t.me/tma123_bot?startapp=" ++ b)%string;
        User.mk 3 c nc ("https://t.me/tma123_bot?startapp=" ++ c)%string]) /\
  (forall fk,
     Permutation (get_user_friends (two_referrals fk) "111") [bob; carol]).
Proof.
  split; [|split].
  - exact In_friends_iff.
  - exact friends_scenario.
  - intros fk. destruct fk; apply Permutation_refl.
Qed.

Lemma existsb_tg_id_map (l : list User.row) (b : string) :
  existsb (String.eqb b) (map User.tg_id l)
  = existsb (fun u => String.eqb (User.tg_id u) b) l.
Proof.
  induction l as [|u l IH]; simpl; [reflexivity|].
  now rewrite IH, (String.eqb_sym b).
Qed.

Lemma count_filtered_unique (q : User.row -> bool) (h : bool) (b : string)
    (l : list User.row) :
  (forall u, User.tg_id u = b -> q u = h) ->
  distinct (map User.tg_id l) = true ->
  count_tg_id b (filter q l)
  = if existsb (fun u => String.eqb (User.tg_id u) b) l && h
    then 1%nat else 0%nat.
Proof.
  intros Hq. unfold count_tg_id.
  induction l as [|u l IH]; simpl; [reflexivity|].
  intros [Hu Hl]%andb_prop. specialize (IH Hl).
  apply negb_true_iff in Hu. rewrite existsb_tg_id_map in Hu.
  destruct (String.eqb_spec (User.tg_id u) b) as [E|N]; simpl.
  - rewrite E in Hu. rewrite Hu in IH. simpl in IH.
    rewrite (Hq u E). destruct h; simpl.
    + apply String.eqb_eq in E. rewrite E. simpl. now rewrite IH.
    + exact IH.
  - destruct (q u); simpl; [|exact IH].
    apply String.eqb_neq in N. now rewrite N.
Qed.

Lemma count_friends db a b :
  unique_tg_ids db = true ->
  count_tg_id b (get_user_friends db a)
  = if has_user db b && has_referral db a b then 1%nat else 0%nat.
Proof.
  intros H. rewrite friends_as_filter.
  apply count_filtered_unique; [|exact H]. now intros u ->.
Qed.

Lemma distinct_tg_ids_NoDup (l : list User.row) :
  distinct (map User.tg_id l) = true -> NoDup l.
Proof.
  induction l as [|u l IH]; simpl; intros H; constructor.
  - apply andb_prop in H as [Hu _]. apply negb_true_iff in Hu.
    intros Hin.
    assert (existsb (String.eqb (User.tg_id u)) (map User.tg_id l) = true).
    { apply existsb_exists. exists (User.tg_id u). split.
      - now apply in_map.
      - apply eqb_refl_true. }
    congruence.
  - apply andb_prop in H as [_ Hl]. auto.
Qed.

Lemma friends_NoDup db a :
  unique_tg_ids db = true -> NoDup (get_user_friends db a).
Proof.
  intros H. rewrite friends_as_filter.
  now apply NoDup_filter, distinct_tg_ids_NoDup.
Qed.

(** C8 as stated does not hold: with the pair ("111","222") stored twice
    the friends of "111" are the one row of "222", once; and under the
    UNIQUE constraint on users.tg_id no store with a repeated pair makes
    a row, or the friend's tg_id, come back more than once. *)
Lemma doubled_referral_friend_once :
  (2 <= List.length (referrals_with_pair doubled_referral "111" "222"))%nat /\
  get_user_friends doubled_referral "111" = [bob] /\
  ~ (exists db a b,
       unique_tg_ids db = true /\
       (2 <= List.length (referrals_with_pair db a b))%nat /\
       has_user db b = true /\
       ((1 < count_tg_id b (get_user_friends db a))%nat \/
        ~ NoDup (get_user_friends db a))).
Proof.
  split; [|split].
  - simpl. lia.
  - reflexivity.
  - intros (db & a & b & Hd & _ & _ & [Hc|Hc]).
    + rewrite (count_friends db a b Hd) in Hc.
      destruct (has_user db b && has_referral db a b); lia.
    + apply Hc. now apply friends_NoDup.
Qed.

(** C8, amended. However many [referrals] rows repeat an ordered pair,
    get_user_friends returns no row twice: under the UNIQUE constraint on
    users.tg_id the rows returned for a friend id number one when the id
    has a row and some referral names it, and none otherwise. *)
Theorem get_user_friends_never_repeats db a b :
  unique_tg_ids db = true ->
  NoDup (get_user_friends db a) /\
  count_tg_id b (get_user_friends db a)
  = (if has_user db b && has_referral db a b then 1 else 0)%nat /\
  (count_tg_id b (get_user_friends db a) <= 1)%nat.
Proof.
  intros H. split; [now apply friends_NoDup|].
  rewrite (count_friends db a b H).
  split; [reflexivity|].
  destruct (has_user db b && has_referral db a b); lia.
Qed.

Lemma get_user_friends_never_repeats_witness :
  count_tg_id "222" (get_user_friends doubled_referral "111") = 1%nat.
Proof.
  exact (proj1 (proj2 (get_user_friends_never_repeats
                         doubled_referral "111" "222" eq_refl))).
Defined.

(** ** The UNIQUE constraint on users.tg_id is kept *)

Lemma create_user_Ok db tg name u db' :
  create_user db tg name = Ok (u, db') ->
  (db' = db /\ In u (users db) /\ User.tg_id u = tg) \/
  (has_user db tg = false /\ User.tg_id u = tg /\
   users db' = users db ++ [u] /\ referrals db' = referrals db).
Proof.
  unfold create_user, get_or_create_user.
  destruct (first (users_with_tg_id db tg)) as [v|] eqn:L.
  - intros [= <- <-]. left. apply first_filter_Some in L as (Hv & Ev).
    apply String.eqb_eq in Ev. auto.
  - intros E. apply add_user_Ok in E as (-> & Hu & Hr & _).
    apply lookup_None_iff in L. right. auto.
Qed.

Lemma distinct_app_one (xs : list string) (x : string) :
  distinct (xs ++ [x]) = distinct xs && negb (existsb (String.eqb x) xs).
Proof.
  induction xs as [|y xs IH]; simpl; [reflexivity|].
  rewrite IH, existsb_app. simpl.
  rewrite orb_false_r, (String.eqb_sym x y).
  destruct (String.eqb y x), (existsb (String.eqb y) xs),
    (distinct xs), (existsb (String.eqb x) xs); reflexivity.
Qed.

Lemma handle_unique_tg_ids db req :
  unique_tg_ids db = true -> unique_tg_ids (snd (handle db req)) = true.
Proof.
  intros H. destruct req as [tg name|tg|tg|now a b|tg|tg]; cbn [handle];
    auto.
  - destruct (create_user db tg name) as [[u db']|e] eqn:E; cbn [snd]; auto.
    apply create_user_Ok in E as [(-> & _)|(Ht & Eu & Hu & _)]; auto.
    unfold unique_tg_ids in *. rewrite Hu, map_app. cbn [map].
    rewrite distinct_app_one, H, existsb_tg_id_map, Eu.
    unfold has_user, tg_id_taken in Ht. now rewrite Ht.
  - destruct (get_user db tg); auto.
  - destruct (create_referral db now a b) as [[r db']|e] eqn:E; cbn [snd];
      auto.
    apply create_referral_frame in E as (Hu & _).
    unfold unique_tg_ids in *. now rewrite Hu.
  - destruct (get_referral_link db tg); auto.
Qed.

Lemma run_unique_tg_ids reqs : forall db,
  unique_tg_ids db = true -> unique_tg_ids (run db reqs) = true.
Proof.
  induction reqs as [|req reqs IH]; intros db H; [exact H|].
  rewrite run_cons. apply IH. now apply handle_unique_tg_ids.
Qed.

(** ** Write-once, read-many *)

(** C9. No request updates or deletes a row: after any request, and after
    any sequence of requests, both tables are the old tables with rows
    added at the end.  The four GET routes leave the store as it is;
    POST /users/ for a tg_id that has a row leaves the store as it is and
    answers with a stored row of that tg_id, and otherwise adds at most
    one [users] row and never touches [referrals]; POST /referrals/ never
    touches [users] and adds at most one [referrals] row. *)
Theorem write_once db req :
  extends (users db) (users (snd (handle db req))) /\
  extends (referrals db) (referrals (snd (handle db req))) /\
  (forall reqs,
     extends (users db) (users (run db reqs)) /\
     extends (referrals db) (referrals (run db reqs))) /\
  match req with
  | POST_users tg name =>
      referrals (snd (handle db req)) = referrals db /\
      (has_user db tg = true ->
       exists u, handle db req = (RUser u, db) /\
                 In u (users db) /\ User.tg_id u = tg) /\
      (snd (handle db req) = db \/
       exists u, users (snd (handle db req)) = users db ++ [u] /\
                 User.tg_id u = tg /\ has_user db tg = false)
  | POST_referrals now a b =>
      users (snd (handle db req)) = users db /\
      (snd (handle db req) = db \/
       exists r, referrals (snd (handle db req)) = referrals db ++ [r])
  | GET_users _ | GET_users_friends _
  | GET_users_referral_link _ | GET_users_total_points _ =>
      snd (handle db req) = db
  end.
Proof.
  destruct (handle_frame db req) as (Hu & Hr & _).
  split; [exact Hu|]. split; [exact Hr|]. split.
  { intros reqs. destruct (run_frame reqs db) as (? & ? & _). auto. }
  destruct req as [tg name|tg|tg|now a b|tg|tg]; cbn [handle].
  - destruct (create_user db tg name) as [[u db']|e] eqn:E; cbn [snd].
    + apply create_user_Ok in E
        as [(-> & Hin & Eu)|(Ht & Eu & Hu' & Hr')].
      * split; [reflexivity|]. split; [|now left]. intros _. eauto.
      * split; [exact Hr'|]. split; [congruence|]. right. eauto.
    + split; [reflexivity|]. split; [|now left]. intros Ht.
      destruct (first_filter_is_Some _ _ Ht) as (w & Hw).
      unfold create_user, get_or_create_user, users_with_tg_id in E.
      rewrite Hw in E. discriminate.
  - destruct (get_user db tg); reflexivity.
  - reflexivity.
  - destruct (create_referral db now a b) as [[r db']|e] eqn:E; cbn [snd].
    + apply create_referral_frame in E as (Hu' & Hr' & _). eauto.
    + auto.
  - destruct (get_referral_link db tg); reflexivity.
  - reflexivity.
Qed.

(** Exactly one row per tg_id: in every store the API built up from the
    empty one no tg_id has two rows. *)
Lemma one_row_per_tg_id fk reqs tg :
  count_tg_id tg (users (run (empty_db fk) reqs))
  = if has_user (run (empty_db fk) reqs) tg then 1%nat else 0%nat.
Proof.
  assert (H : unique_tg_ids (run (empty_db fk) reqs) = true)
    by (apply run_unique_tg_ids; reflexivity).
  pose proof (count_filtered_unique (fun _ => true) true tg
                (users (run (empty_db fk) reqs)) (fun _ _ => eq_refl) H) as C.
  rewrite andb_true_r in C. unfold has_user, tg_id_taken. rewrite <- C.
  f_equal. symmetry. apply forallb_filter_id.
  now apply forallb_forall.
Qed.

(** * Further properties of the handlers *)

(** ** Lookups after a create *)

(** X1. A row create_user has returned is what get_user finds under its tg_id
    from then on, and get_referral_link reads that row's link, whatever
    requests are served in between. *)
Theorem created_user_is_found db tg name u db1 :
  create_user db tg name = Ok (u, db1) ->
  forall later : list request,
    get_user (run db1 later) tg = Ok u /\
    get_referral_link (run db1 later) tg = Ok (User.ref_link u) /\
    has_user (run db1 later) tg = true.
Proof.
  intros E later.
  assert (L : first (users_with_tg_id (run db1 later) tg) = Some u)
    by (apply lookup_stable; eapply create_user_lookup; eauto).
  unfold get_user, get_referral_link. rewrite L.
  repeat split.
  destruct (has_user (run db1 later) tg) eqn:H; [reflexivity|].
  apply lookup_None_iff in H. congruence.
Qed.

Lemma created_user_is_found_witness :
  get_user (two_referrals true) "111" = Ok alice /\
  get_referral_link (two_referrals true) "111"
    = Ok "https://t.me/tma123_bot?startapp=111".
Proof.
  destruct (created_user_is_found (empty_db true) "111" "alice" alice
              (run (empty_db true) [POST_users "111" "alice"]) eq_refl
              [POST_users "222" "bob"; POST_users "333" "carol";
               POST_referrals 10 "111" "222"; POST_referrals 20 "111" "333"])
    as (H1 & H2 & _).
  exact (conj H1 H2).
Defined.

(** ** Constraints the requests keep *)

Lemma count_tg_id_unique db tg :
  unique_tg_ids db = true ->
  count_tg_id tg (users db) = if has_user db tg then 1%nat else 0%nat.
Proof.
  intros H.
  pose proof (count_filtered_unique (fun _ => true) true tg (users db)
                (fun _ _ => eq_refl) H) as C.
  rewrite andb_true_r in C. unfold has_user, tg_id_taken. rewrite <- C.
  f_equal. symmetry. apply forallb_filter_id. now apply forallb_forall.
Qed.

(** X2. A store that satisfies the UNIQUE constraint on users.tg_id still
    satisfies it after any requests: no tg_id ever gets a second row, and a
    tg_id that has a row has exactly one. *)
Theorem unique_tg_ids_kept db reqs :
  unique_tg_ids db = true ->
  unique_tg_ids (run db reqs) = true /\
  (forall tg,
     count_tg_id tg (users (run db reqs))
     = if has_user (run db reqs) tg then 1%nat else 0%nat).
Proof.
  intros H. pose proof (run_unique_tg_ids reqs db H) as H'.
  split; [exact H'|]. intros tg. now apply count_tg_id_unique.
Qed.

Lemma unique_tg_ids_kept_witness :
  unique_tg_ids (two_referrals false) = true /\
  count_tg_id "222" (users (two_referrals false)) = 1%nat.
Proof.
  destruct (unique_tg_ids_kept (three_users false)
              [POST_referrals 10 "111" "222"; POST_referrals 20 "111" "333"]
              eq_refl) as (H1 & H2).
  exact (conj H1 (H2 "222")).
Defined.

Lemma no_repeated_pair_app_one (l : list Referral.row) (r : Referral.row) :
  no_repeated_pair (l ++ [r])
  = no_repeated_pair l
    && negb (existsb
               (fun r' => String.eqb (Referral.user_tg_id r')
                                     (Referral.user_tg_id r)
                          && String.eqb (Referral.friend_tg_id r')
                                        (Referral.friend_tg_id r)) l).
Proof.
  induction l as [|x l IH]; simpl; [reflexivity|].
  rewrite IH, existsb_app. simpl. rewrite orb_false_r.
  rewrite (String.eqb_sym (Referral.user_tg_id r)),
          (String.eqb_sym (Referral.friend_tg_id r)).
  set (e := String.eqb (Referral.user_tg_id x) (Referral.user_tg_id r)
            && String.eqb (Referral.friend_tg_id x)
                 (Referral.friend_tg_id r)).
  destruct e, (existsb _ l), (no_repeated_pair l), (existsb _ l);
    reflexivity.
Qed.

Lemma handle_unique_pairs db req :
  unique_pairs db = true -> unique_pairs (snd (handle db req)) = true.
Proof.
  intros H. destruct req as [tg name|tg|tg|now a b|tg|tg]; cbn [handle];
    auto.
  - destruct (create_user db tg name) as [[u db']|e] eqn:E; cbn [snd]; auto.
    apply create_user_frame in E as (_ & Hr & _).
    unfold unique_pairs in *. now rewrite Hr.
  - destruct (get_user db tg); auto.
  - destruct (create_referral db now a b) as [[r db']|e] eqn:E; cbn [snd];
      auto.
    pose proof E as F. apply create_referral_frame in F as (_ & Hr & _).
    rewrite create_referral_cases in E.
    destruct (has_referral db a b) eqn:Hab; [discriminate|].
    apply add_referral_Ok in E as (Er & _).
    unfold unique_pairs in *. rewrite Hr, no_repeated_pair_app_one, H.
    rewrite Er. cbn [Referral.user_tg_id Referral.friend_tg_id].
    unfold has_referral in Hab. now rewrite Hab.
  - destruct (get_referral_link db tg); auto.
Qed.

Lemma run_unique_pairs reqs : forall db,
  unique_pairs db = true -> unique_pairs (run db reqs) = true.
Proof.
  induction reqs as [|req reqs IH]; intros db H; [exact H|].
  rewrite run_cons. apply IH. now apply handle_unique_pairs.
Qed.

Lemma no_repeated_pair_count (l : list Referral.row) (a b : string) :
  no_repeated_pair l = true ->
  (List.length
     (filter (fun r => String.eqb (Referral.user_tg_id r) a
                       && String.eqb (Referral.friend_tg_id r) b) l)
   <= 1)%nat.
Proof.
  induction l as [|x l IH]; simpl; [lia|].
  intros [Hx Hl]%andb_prop. specialize (IH Hl).
  destruct (String.eqb_spec (Referral.user_tg_id x) a) as [Ea|_];
    simpl; [|exact IH].
  destruct (String.eqb_spec (Referral.friend_tg_id x) b) as [Eb|_];
    simpl; [|exact IH].
  apply negb_true_iff in Hx. rewrite Ea, Eb in Hx.
  apply first_filter_None in Hx. apply filter_nil_of_first in Hx.
  rewrite Hx. simpl. lia.
Qed.

(** X3. Served one after the other, the requests never store an ordered pair
    twice: a [referrals] table without a repeated pair has none after any
    requests, so every pair has at most one row. *)
Theorem unique_pairs_kept db reqs :
  unique_pairs db = true ->
  unique_pairs (run db reqs) = true /\
  (forall a b,
     (List.length (referrals_with_pair (run db reqs) a b) <= 1)%nat).
Proof.
  intros H. pose proof (run_unique_pairs reqs db H) as H'.
  split; [exact H'|]. intros a b. now apply no_repeated_pair_count.
Qed.

Lemma unique_pairs_kept_witness :
  Nat.le
    (List.length
       (referrals_with_pair
          (run (two_referrals true)
             [POST_referrals 30 "111" "222"; POST_referrals 31 "222" "111"])
          "111" "222"))
    1%nat.
Proof.
  exact (proj2 (unique_pairs_kept (two_referrals true)
                  [POST_referrals 30 "111" "222";
                   POST_referrals 31 "222" "111"] eq_refl) "111" "222").
Defined.

Lemma has_user_extends db db' tg :
  extends (users db) (users db') ->
  has_user db tg = true -> has_user db' tg = true.
Proof.
  unfold has_user, tg_id_taken. intros [added ->] H.
  now rewrite existsb_app, H.
Qed.

Lemma referential_extends db db' :
  extends (users db) (users db') -> referrals db' = referrals db ->
  referential db = true -> referential db' = true.
Proof.
  unfold referential. intros Hu -> H.
  rewrite forallb_forall in *. intros r Hr.
  apply H, andb_prop in Hr as [Ha Hb].
  now rewrite (has_user_extends db db' _ Hu Ha),
              (has_user_extends db db' _ Hu Hb).
Qed.

Lemma handle_referential db req :
  foreign_keys db = true -> referential db = true ->
  referential (snd (handle db req)) = true.
Proof.
  intros Hf H. destruct req as [tg name|tg|tg|now a b|tg|tg]; cbn [handle];
    auto.
  - destruct (create_user db tg name) as [[u db']|e] eqn:E; cbn [snd]; auto.
    apply create_user_frame in E as (Hu & Hr & _).
    now apply (referential_extends db db').
  - destruct (get_user db tg); auto.
  - destruct (create_referral db now a b) as [[r db']|e] eqn:E; cbn [snd];
      auto.
    rewrite create_referral_cases in E.
    destruct (has_referral db a b); [discriminate|].
    apply add_referral_Ok in E as (Er & Hr & Hu & _ & Fa & Fb).
    unfold fk_ok in Fa, Fb. rewrite Hf in Fa, Fb. simpl in Fa, Fb.
    unfold referential in *. rewrite Hr, forallb_app.
    unfold has_user, tg_id_taken in *. rewrite Hu, H, Er.
    cbn [forallb Referral.user_tg_id Referral.friend_tg_id].
    now rewrite Fa, Fb.
  - destruct (get_referral_link db tg); auto.
Qed.

Lemma run_referential reqs : forall db,
  foreign_keys db = true -> referential db = true ->
  referential (run db reqs) = true.
Proof.
  induction reqs as [|req reqs IH]; intros db Hf H; [exact H|].
  rewrite run_cons. apply IH.
  - destruct (handle_frame db req) as (_ & _ & ->). exact Hf.
  - now apply handle_referential.
Qed.

(** X4. On a store that enforces foreign keys, the requests keep the
    [referrals] table referentially intact: if every stored referral names
    two existing users, so does every referral after any requests. *)
Theorem referential_kept db reqs :
  foreign_keys db = true -> referential db = true ->
  referential (run db reqs) = true /\
  (forall r, In r (referrals (run db reqs)) ->
     has_user (run db reqs) (Referral.user_tg_id r) = true /\
     has_user (run db reqs) (Referral.friend_tg_id r) = true).
Proof.
  intros Hf H. pose proof (run_referential reqs db Hf H) as H'.
  split; [exact H'|]. intros r Hr.
  unfold referential in H'. rewrite forallb_forall in H'.
  now apply andb_prop, H'.
Qed.

Lemma referential_kept_witness :
  referential
    (run (three_users true)
       [POST_referrals 10 "111" "222"; POST_referrals 11 "111" "999";
        POST_users "999" "dave"; POST_referrals 12 "111" "999"]) = true.
Proof.
  exact (proj1 (referential_kept (three_users true)
                  [POST_referrals 10 "111" "222";
                   POST_referrals 11 "111" "999";
                   POST_users "999" "dave"; POST_referrals 12 "111" "999"]
                  eq_refl eq_refl)).
Defined.

(** Without enforced foreign keys the same requests do leave a referral
    whose friend has no row. *)
Example dangling_referral :
  referential (run (three_users false) [POST_referrals 11 "111" "999"])
  = false.
Proof. reflexivity. Qed.

(** ** Repeating a request *)

Lemma create_user_again db tg name name' :
  run db [POST_users tg name; POST_users tg name']
  = run db [POST_users tg name].
Proof.
  unfold run. cbn [fold_left handle].
  destruct (create_user db tg name) as [[u db']|e] eqn:E; cbn [snd].
  - apply create_user_lookup in E.
    now rewrite (create_user_existing db' tg name' u E).
  - unfold create_user, get_or_create_user in *.
    destruct (first (users_with_tg_id db tg)); [discriminate|].
    unfold add_user in *.
    destruct (tg_id_taken db tg || ref_link_taken db (base_url ++ tg));
      [reflexivity|discriminate].
Qed.

Lemma create_referral_again db now now' a b :
  run db [POST_referrals now a b; POST_referrals now' a b]
  = run db [POST_referrals now a b].
Proof.
  unfold run. cbn [fold_left handle].
  destruct (create_referral db now a b) as [[r db']|e] eqn:E; cbn [snd].
  - pose proof E as F. apply create_referral_frame in F as (_ & Hr & _).
    rewrite create_referral_cases in E.
    destruct (has_referral db a b); [discriminate|].
    apply add_referral_Ok in E as (Er & _).
    rewrite create_referral_cases, (has_referral_app_one db db' r a b Hr).
    rewrite Er. cbn [Referral.user_tg_id Referral.friend_tg_id].
    now rewrite !eqb_refl_true, orb_true_r.
  - rewrite !create_referral_cases in *.
    destruct (has_referral db a b); [reflexivity|].
    unfold add_referral in *.
    destruct (fk_ok db a && fk_ok db b); [discriminate|reflexivity].
Qed.

(** X5. Sending a request a second time changes nothing: the store after the
    repeat is the store after the first.  For the two POST routes this
    holds whatever username or clock reading the repeat carries, and the
    repeat of a referral that was just created is answered with the 400. *)
Theorem repeated_request_changes_nothing :
  (forall db req, run db [req; req] = run db [req]) /\
  (forall db tg name name',
     run db [POST_users tg name; POST_users tg name']
     = run db [POST_users tg name]) /\
  (forall db now now' a b,
     run db [POST_referrals now a b; POST_referrals now' a b]
     = run db [POST_referrals now a b]) /\
  (forall db now now' a b r,
     fst (handle db (POST_referrals now a b)) = RReferral r ->
     fst (handle (run db [POST_referrals now a b])
                 (POST_referrals now' a b)) = RFault Conflict).
Proof.
  split; [|split; [|split]].
  - intros db [tg name|tg|tg|now a b|tg|tg].
    + apply create_user_again.
    + unfold run. cbn [fold_left handle].
      destruct (get_user db tg) eqn:G; cbn [snd]; now rewrite G.
    + reflexivity.
    + apply create_referral_again.
    + unfold run. cbn [fold_left handle].
      destruct (get_referral_link db tg) eqn:G; cbn [snd]; now rewrite G.
    + reflexivity.
  - exact create_user_again.
  - exact create_referral_again.
  - intros db now now' a b r. unfold run. cbn [fold_left handle].
    destruct (create_referral db now a b) as [[r' db']|e] eqn:E;
      cbn [fst snd]; [|discriminate].
    intros _. pose proof E as F.
    apply create_referral_frame in F as (_ & Hr & _).
    rewrite create_referral_cases in E.
    destruct (has_referral db a b); [discriminate|].
    apply add_referral_Ok in E as (Er & _).
    rewrite create_referral_cases, (has_referral_app_one db db' r' a b Hr).
    rewrite Er. cbn [Referral.user_tg_id Referral.friend_tg_id].
    now rewrite !eqb_refl_true, orb_true_r.
Qed.

(** ** Totals and friend lists over time *)

Lemma total_points_same_referrals db db' tg :
  referrals db' = referrals db ->
  get_total_points db' tg = get_total_points db tg.
Proof. unfold get_total_points, referrals_of. now intros ->. Qed.

Lemma has_referral_same_referrals db db' a b :
  referrals db' = referrals db -> has_referral db' a b = has_referral db a b.
Proof. unfold has_referral. now intros ->. Qed.

Lemma handle_total_points db req tg :
  exists n : nat,
    get_total_points (snd (handle db req)) tg
    = get_total_points db tg + 100 * Z.of_nat n.
Proof.
  destruct req as [t name|t|t|now a b|t|t]; cbn [handle];
    try (exists 0%nat; cbn [snd]; lia).
  - destruct (create_user db t name) as [[u db']|e] eqn:E; cbn [snd];
      exists 0%nat; [|lia].
    apply create_user_frame in E as (_ & Hr & _).
    rewrite (total_points_same_referrals db db' tg Hr). lia.
  - destruct (get_user db t); exists 0%nat; cbn [snd]; lia.
  - destruct (create_referral db now a b) as [[r db']|e] eqn:E; cbn [snd].
    + rewrite (total_points_after_create _ _ _ _ _ _ tg E).
      destruct (String.eqb a tg); [exists 1%nat|exists 0%nat]; lia.
    + exists 0%nat. lia.
  - destruct (get_referral_link db t); exists 0%nat; cbn [snd]; lia.
Qed.

Lemma run_total_points reqs tg : forall db,
  exists n : nat,
    get_total_points (run db reqs) tg
    = get_total_points db tg + 100 * Z.of_nat n.
Proof.
  induction reqs as [|req reqs IH]; intros db.
  - exists 0%nat. simpl. lia.
  - rewrite run_cons.
    destruct (IH (snd (handle db req))) as (n & ->).
    destruct (handle_total_points db req tg) as (m & ->).
    exists (m + n)%nat. lia.
Qed.

Lemma run_friends_incl db reqs tg :
  incl (get_user_friends db tg) (get_user_friends (run db reqs) tg).
Proof.
  intros u. rewrite !In_friends_iff.
  destruct (run_frame reqs db) as ([au ->] & [ar ->] & _).
  intros (Hu & r & Hr & E). split.
  - apply in_or_app. now left.
  - exists r. split; [|exact E]. apply in_or_app. now left.
Qed.

(** X6. Points are never taken away and friends never dropped: after any
    requests a user's total is the old total plus a whole number of 100s,
    and every row that was in the friend list still is. *)
Theorem totals_and_friends_only_grow db reqs tg :
  (exists n : nat,
     get_total_points (run db reqs) tg
     = get_total_points db tg + 100 * Z.of_nat n) /\
  get_total_points db tg <= get_total_points (run db reqs) tg /\
  incl (get_user_friends db tg) (get_user_friends (run db reqs) tg).
Proof.
  destruct (run_total_points reqs tg db) as (n & E).
  split; [eauto|]. split; [lia|]. apply run_friends_incl.
Qed.

(** X7. A new referral (a,b) changes the friend list of a only, and only by
    the [users] rows of b: if b has no row the list stays as it was. *)
Theorem create_referral_friends db now a b r db' :
  create_referral db now a b = Ok (r, db') ->
  (forall c, c <> a -> get_user_friends db' c = get_user_friends db c) /\
  (forall u, In u (get_user_friends db' a) <->
             In u (get_user_friends db a) \/
             (In u (users db) /\ User.tg_id u = b)) /\
  (has_user db b = false ->
   get_user_friends db' a = get_user_friends db a).
Proof.
  intros E. pose proof E as F.
  apply create_referral_frame in F as (Hu & Hr & _).
  rewrite create_referral_cases in E.
  destruct (has_referral db a b); [discriminate|].
  apply add_referral_Ok in E as (Er & _).
  assert (P : forall c x,
             has_referral db' c x
             = has_referral db c x
               || (String.eqb a c && String.eqb b x)).
  { intros c x. rewrite (has_referral_app_one db db' r c x Hr). now subst r. }
  split; [|split].
  - intros c Hc. rewrite !friends_as_filter, Hu. apply filter_ext.
    intros u. rewrite P. apply not_eq_sym, String.eqb_neq in Hc.
    now rewrite Hc, orb_false_r.
  - intros u. rewrite !friends_as_filter, Hu, !filter_In, P.
    rewrite eqb_refl_true, orb_true_iff. cbn [andb].
    rewrite String.eqb_eq. intuition congruence.
  - intros Hb. rewrite !friends_as_filter, Hu. apply filter_ext_in.
    intros u Hin. rewrite P, eqb_refl_true. cbn [andb].
    destruct (String.eqb_spec b (User.tg_id u)) as [Eb|_];
      [|apply orb_false_r].
    apply has_user_false_iff in Hb. exfalso. apply Hb. eauto.
Qed.

Lemma create_referral_friends_witness :
  get_user_friends (run (three_users true) [POST_referrals 10 "111" "222"])
                   "222"
  = get_user_friends (three_users true) "222".
Proof.
  refine (proj1 (create_referral_friends (three_users true) 10 "111" "222"
                   (Referral.mk 1 10 "111" "222" 100)
                   (run (three_users true) [POST_referrals 10 "111" "222"])
                   eq_refl) "222" _).
  discriminate.
Defined.

(** X8. Registering a tg_id that had no row adds the new row, once, to the
    friend list of exactly those users who already have a referral naming
    it: up to the order of the answer, the new list is the old one with
    the new row for them and the old one for everybody else.  Nobody's
    total changes. *)
Theorem create_user_friends db tg name u db' :
  has_user db tg = false ->
  create_user db tg name = Ok (u, db') ->
  forall a,
    Permutation
      (get_user_friends db' a)
      (get_user_friends db a ++ (if has_referral db a tg then [u] else [])) /\
    (forall v, In v (get_user_friends db' a) <->
               In v (get_user_friends db a) \/
               (v = u /\ has_referral db a tg = true)) /\
    get_total_points db' a = get_total_points db a.
Proof.
  intros Hn E a.
  apply create_user_Ok in E as [(-> & Hin & Eu)|(_ & Eu & Hu & Hr)].
  - apply has_user_false_iff in Hn. exfalso. apply Hn. eauto.
  - assert (P : get_user_friends db' a
                = get_user_friends db a
                  ++ (if has_referral db a tg then [u] else [])).
    { rewrite !friends_as_filter, Hu, filter_app. f_equal.
      - apply filter_ext. intros v.
        now apply has_referral_same_referrals.
      - cbn [filter].
        now rewrite (has_referral_same_referrals db db' _ _ Hr), Eu. }
    split; [|split].
    + rewrite P. apply Permutation_refl.
    + intros v. rewrite P, in_app_iff.
      destruct (has_referral db a tg); simpl; intuition congruence.
    + now apply total_points_same_referrals.
Qed.

Lemma create_user_friends_witness :
  let db := run (empty_db false)
              [POST_users "111" "alice"; POST_referrals 10 "111" "222"] in
  get_user_friends db "111" = [] /\
  Permutation (get_user_friends (run db [POST_users "222" "bob"]) "111")
              [bob] /\
  get_total_points (run db [POST_users "222" "bob"]) "111" = 100.
Proof.
  intros db.
  destruct (create_user_friends db "222" "bob" bob
              (run db [POST_users "222" "bob"]) eq_refl eq_refl "111")
    as (H1 & _ & H2).
  exact (conj eq_refl (conj H1 H2)).
Defined.

(** ** Reads for an id without a row *)

Lemma filter_none {A : Type} (p : A -> bool) (l : list A) :
  (forall x, In x l -> p x = false) -> filter p l = [].
Proof.
  induction l as [|a l IH]; simpl; intros H; [reflexivity|].
  rewrite (H a) by auto. apply IH. auto.
Qed.

Lemma referrals_of_unknown db tg :
  referential db = true -> has_user db tg = false -> referrals_of db tg = [].
Proof.
  intros H Hn. unfold referrals_of. apply filter_none. intros r Hr.
  unfold referential in H. rewrite forallb_forall in H.
  apply H, andb_prop in Hr as [Ha _].
  destruct (String.eqb_spec (Referral.user_tg_id r) tg) as [E|_];
    [|reflexivity].
  rewrite E in Ha. congruence.
Qed.

(** X9. For an id that has no [users] row the four GET routes split: get_user
    and get_referral_link raise the 404, while get_user_friends and
    get_total_points raise nothing; in a referentially intact store they
    answer the empty list and 0. *)
Theorem reads_of_unknown_id db tg :
  referential db = true -> has_user db tg = false ->
  get_user db tg = Raise NotFound /\
  get_referral_link db tg = Raise NotFound /\
  handle db (GET_users_friends tg) = (RFriends [], db) /\
  handle db (GET_users_total_points tg) = (RTotalPoints 0, db).
Proof.
  intros H Hn. pose proof (referrals_of_unknown db tg H Hn) as R.
  apply lookup_None_iff in Hn.
  unfold get_user, get_referral_link. rewrite Hn.
  cbn [handle]. unfold get_user_friends, get_total_points. rewrite R.
  repeat split. f_equal. f_equal. unfold users_with_tg_id_in.
  now apply filter_none.
Qed.

Lemma reads_of_unknown_id_witness :
  get_user (two_referrals true) "999" = Raise NotFound /\
  handle (two_referrals true) (GET_users_friends "999")
    = (RFriends [], two_referrals true).
Proof.
  destruct (reads_of_unknown_id (two_referrals true) "999" eq_refl eq_refl)
    as (H1 & _ & H3 & _).
  exact (conj H1 H3).
Defined.

(** ** Which faults a request can end in *)

(** X10. A request that ends in a fault has stored nothing, and the fault tells
    what happened: the two lookups can only raise the 404, for a tg_id
    without a row; POST /referrals/ raises the 400 for a stored pair and
    otherwise only an integrity fault, on a store that enforces foreign
    keys and misses a row for one of the two ids; POST /users/ can only
    hit an integrity fault, when the link it builds is already stored
    under another tg_id; the friends and total routes never fault. *)
Theorem faults_classified db req e :
  fault_of (fst (handle db req)) = Some e ->
  snd (handle db req) = db /\
  match req with
  | GET_users tg | GET_users_referral_link tg =>
      e = NotFound /\ has_user db tg = false
  | POST_referrals _ a b =>
      (e = Conflict /\ has_referral db a b = true) \/
      (e = IntegrityError /\ has_referral db a b = false /\
       foreign_keys db = true /\
       (has_user db a = false \/ has_user db b = false))
  | POST_users tg _ =>
      e = IntegrityError /\ has_user db tg = false /\
      ref_link_taken db (base_url ++ tg)%string = true
  | GET_users_friends _ | GET_users_total_points _ => False
  end.
Proof.
  destruct req as [tg name|tg|tg|now a b|tg|tg]; cbn [handle].
  - unfold create_user, get_or_create_user.
    destruct (first (users_with_tg_id db tg)) as [v|] eqn:L;
      cbn [fst snd fault_of]; [discriminate|].
    apply lookup_None_iff in L. unfold add_user.
    pose proof L as L'. unfold has_user in L'. rewrite L'. cbn [orb].
    destruct (ref_link_taken db (base_url ++ tg)) eqn:R;
      cbn [fst snd fault_of]; [|discriminate].
    intros [= <-]. auto.
  - unfold get_user.
    destruct (first (users_with_tg_id db tg)) as [v|] eqn:L;
      cbn [fst snd fault_of]; [discriminate|].
    intros [= <-]. apply lookup_None_iff in L. auto.
  - discriminate.
  - rewrite create_referral_cases.
    destruct (has_referral db a b) eqn:Hab; cbn [fst snd fault_of].
    + intros [= <-]. auto.
    + unfold add_referral, fk_ok, has_user.
      destruct (foreign_keys db); cbn [negb orb];
        [|cbn [andb fst snd fault_of]; discriminate].
      destruct (tg_id_taken db a); cbn [andb fst snd fault_of].
      * destruct (tg_id_taken db b); cbn [fst snd fault_of];
          [discriminate|]. intros [= <-]. split; [reflexivity|]. right. auto.
      * intros [= <-]. split; [reflexivity|]. right. auto.
  - unfold get_referral_link.
    destruct (first (users_with_tg_id db tg)) as [v|] eqn:L;
      cbn [fst snd fault_of]; [discriminate|].
    intros [= <-]. apply lookup_None_iff in L. auto.
  - discriminate.
Qed.

Lemma faults_classified_witness :
  has_referral (two_referrals true) "111" "222" = true.
Proof.
  destruct (faults_classified (two_referrals true)
              (POST_referrals 30 "111" "222") Conflict eq_refl)
    as (_ & [(_ & H)|(H & _)]).
  - exact H.
  - discriminate H.
Defined.

(** ** Stores built through the API *)

Lemma links_generated_In db u :
  links_generated db = true -> In u (users db) ->
  User.ref_link u = (base_url ++ User.tg_id u)%string.
Proof.
  unfold links_generated. rewrite forallb_forall. intros H Hu.
  now apply String.eqb_eq, H.
Qed.

(** X11. In every store the requests built up from the empty one, each stored
    link is the fixed base followed by the row's tg_id; POST /users/ never
    ends in a fault there and answers with a row of the tg_id sent; and
    get_referral_link, when it finds the user, returns the base followed
    by the tg_id asked for. *)
Theorem api_built_links fk reqs :
  (forall u, In u (users (run (empty_db fk) reqs)) ->
     User.ref_link u
     = ("https://t.me/tma123_bot?startapp=" ++ User.tg_id u)%string) /\
  (forall tg name,
     exists u,
       fst (handle (run (empty_db fk) reqs) (POST_users tg name)) = RUser u /\
       User.tg_id u = tg /\
       User.ref_link u
       = ("https://t.me/tma123_bot?startapp=" ++ tg)%string) /\
  (forall tg, has_user (run (empty_db fk) reqs) tg = true ->
     get_referral_link (run (empty_db fk) reqs) tg
     = Ok ("https://t.me/tma123_bot?startapp=" ++ tg)%string).
Proof.
  assert (G : links_generated (run (empty_db fk) reqs) = true)
    by (apply run_links_generated; reflexivity).
  set (db := run (empty_db fk) reqs) in *.
  split; [|split].
  - intros u Hu. now apply (links_generated_In db).
  - intros tg name. cbn [handle].
    destruct (create_user_succeeds db tg name G) as (u & db' & E).
    rewrite E. exists u. split; [reflexivity|].
    pose proof (create_user_links_generated _ _ _ _ _ G E) as G'.
    apply create_user_lookup, first_filter_Some in E as (Hu & Et).
    apply String.eqb_eq in Et. split; [exact Et|].
    rewrite <- Et. now apply (links_generated_In db').
  - intros tg Ht. destruct (first_filter_is_Some _ _ Ht) as (u & L).
    unfold get_referral_link, users_with_tg_id. rewrite L.
    apply first_filter_Some in L as (Hu & Et). apply String.eqb_eq in Et.
    rewrite <- Et. f_equal. now apply (links_generated_In db).
Qed.

(** ** One hundred points per friend *)

Lemma total_points_100_each db a :
  all_points_100 db = true ->
  get_total_points db a = 100 * Z.of_nat (List.length (referrals_of db a)).
Proof.
  rewrite total_points_as_spec. unfold all_points_100, referrals_of.
  induction (referrals db) as [|r l IH]; [reflexivity|].
  cbn [forallb spec_total_points filter].
  intros [Hr Hl]%andb_prop. apply Z.eqb_eq in Hr. rewrite (IH Hl).
  destruct (String.eqb (Referral.user_tg_id r) a); cbn [List.length]; lia.
Qed.

Lemma distinct_NoDup (xs : list string) : distinct xs = true -> NoDup xs.
Proof.
  induction xs as [|x xs IH]; simpl; intros H; constructor.
  - apply andb_prop in H as [Hx _]. apply negb_true_iff in Hx.
    intros Hin.
    assert (existsb (String.eqb x) xs = true).
    { apply existsb_exists. exists x. split; [exact Hin|].
      apply eqb_refl_true. }
    congruence.
  - apply andb_prop in H as [_ Hl]. auto.
Qed.

Lemma NoDup_map_filter {A B : Type} (k : A -> B) (q : A -> bool)
    (l : list A) :
  NoDup (map k l) -> NoDup (map k (filter q l)).
Proof.
  induction l as [|x l IH]; simpl; intros H; [constructor|].
  inversion H as [|? ? Hx Hl]; subst.
  destruct (q x); simpl; auto.
  constructor; auto.
  intros Hin. apply Hx. apply in_map_iff in Hin as (y & E & Hy).
  apply filter_In in Hy as [Hy _]. rewrite <- E. now apply in_map.
Qed.

Lemma friend_ids_NoDup db a :
  unique_pairs db = true ->
  NoDup (map Referral.friend_tg_id (referrals_of db a)).
Proof.
  unfold unique_pairs, referrals_of.
  induction (referrals db) as [|r l IH]; simpl; intros H; [constructor|].
  apply andb_prop in H as [Hr Hl].
  destruct (String.eqb_spec (Referral.user_tg_id r) a) as [Ea|_];
    simpl; auto.
  constructor; auto.
  intros Hin. apply in_map_iff in Hin as (r' & Ef & Hr').
  apply filter_In in Hr' as [Hr' Eu]. apply String.eqb_eq in Eu.
  apply negb_true_iff in Hr.
  assert (existsb
            (fun r' => String.eqb (Referral.user_tg_id r')
                                  (Referral.user_tg_id r)
                       && String.eqb (Referral.friend_tg_id r')
                                     (Referral.friend_tg_id r)) l = true).
  { apply existsb_exists. exists r'. split; [exact Hr'|].
    now rewrite Eu, Ea, Ef, !eqb_refl_true. }
  congruence.
Qed.

Lemma friends_le_referrals db a :
  unique_tg_ids db = true ->
  (List.length (get_user_friends db a)
   <= List.length (referrals_of db a))%nat.
Proof.
  intros Hd.
  rewrite <- (length_map User.tg_id),
          <- (length_map Referral.friend_tg_id (referrals_of db a)).
  apply NoDup_incl_length.
  - rewrite friends_as_filter.
    now apply NoDup_map_filter, distinct_NoDup.
  - intros x Hx. apply in_map_iff in Hx as (u & <- & Hu).
    apply In_friends_iff in Hu as (_ & r & Hr & Ea & Ef).
    apply in_map_iff. exists r. split; [exact Ef|].
    apply filter_In. split; [exact Hr|]. now apply String.eqb_eq.
Qed.

Lemma referrals_le_friends db a :
  unique_pairs db = true -> referential db = true ->
  (List.length (referrals_of db a)
   <= List.length (get_user_friends db a))%nat.
Proof.
  intros Hp Hr.
  rewrite <- (length_map User.tg_id),
          <- (length_map Referral.friend_tg_id (referrals_of db a)).
  apply NoDup_incl_length; [now apply friend_ids_NoDup|].
  intros x Hx. apply in_map_iff in Hx as (r & <- & Hin).
  apply filter_In in Hin as [Hin Ea]. apply String.eqb_eq in Ea.
  unfold referential in Hr. rewrite forallb_forall in Hr.
  pose proof (Hr r Hin) as Hh. apply andb_prop in Hh as [_ Hb].
  apply has_user_iff in Hb as (u & Hu & Eu).
  apply in_map_iff. exists u. split; [exact Eu|].
  apply In_friends_iff. split; [exact Hu|]. exists r. auto.
Qed.

(** X12. In a store filled through the API, a user's total is 100 times the
    number of their referrals, and never less than 100 times the length of
    their friend list.  When the store enforces foreign keys the two agree:
    the friend list has one row for each referral and the total is 100
    times its length. *)
Theorem points_per_friend :
  (forall fk reqs a,
     get_total_points (run (empty_db fk) reqs) a
     = 100 * Z.of_nat
               (List.length (referrals_of (run (empty_db fk) reqs) a)) /\
     100 * Z.of_nat
             (List.length (get_user_friends (run (empty_db fk) reqs) a))
     <= get_total_points (run (empty_db fk) reqs) a) /\
  (forall reqs a,
     get_total_points (run (empty_db true) reqs) a
     = 100 * Z.of_nat
               (List.length
                  (get_user_friends (run (empty_db true) reqs) a))).
Proof.
  split.
  - intros fk reqs a.
    assert (P : all_points_100 (run (empty_db fk) reqs) = true)
      by (apply run_all_points_100; reflexivity).
    assert (U : unique_tg_ids (run (empty_db fk) reqs) = true)
      by (apply run_unique_tg_ids; reflexivity).
    rewrite (total_points_100_each _ a P).
    pose proof (friends_le_referrals _ a U). split; lia.
  - intros reqs a.
    assert (P : all_points_100 (run (empty_db true) reqs) = true)
      by (apply run_all_points_100; reflexivity).
    assert (U : unique_tg_ids (run (empty_db true) reqs) = true)
      by (apply run_unique_tg_ids; reflexivity).
    assert (Q : unique_pairs (run (empty_db true) reqs) = true)
      by (apply run_unique_pairs; reflexivity).
    assert (R : referential (run (empty_db true) reqs) = true)
      by (apply run_referential; reflexivity).
    rewrite (total_points_100_each _ a P).
    pose proof (friends_le_referrals _ a U).
    pose proof (referrals_le_friends _ a Q R). lia.
Qed.

(** Without enforced foreign keys the total can exceed 100 per listed
    friend: a referral to an id that never registered counts. *)
Example points_for_unregistered_friend :
  let db := run (empty_db false)
              [POST_users "111" "alice"; POST_referrals 10 "111" "222"] in
  get_total_points db "111" = 100 /\ get_user_friends db "111" = [].
Proof. split; reflexivity. Qed.
